(** * The managed-delivery [Environments] component

    A shallow embedding of the React function component [Environments] of
    [delivery.module.js] and the properties of its view derivation.

    Conventions of the embedding:
    - the own properties of a plain JS object used as a dictionary are a
      [gmap string _].  A bracket read [object[key]] that the component does
      itself is [getProperty]: an own property if there is one, else the
      member inherited from [Object.prototype] if [key] names one, else
      [undefined].  The page is taken not to add properties to
      [Object.prototype], and no environment to be named ['__proto__'];
    - [Array.prototype.reduce] is a left fold, [Array.prototype.map] is
      [fmap], [Array.prototype.find] is [List.find];
    - the results of the hooks owned by collaborators ([useDataSource],
      [useRouter], [useCurrentStateAndParams]) and the global [SETTINGS]
      are inputs of the render function;
    - a JS exception is an explicit [Throw] result. *)

From stdpp Require Import gmap strings list fin_maps pretty.

Open Scope string_scope.

(** ** JS values *)

(** A flat object whose properties hold strings: router params, and the
    objects built from them. *)
Abbreviation JsObject := (gmap string string).

(** ToBoolean on a property read that yields a string or [undefined]. *)
Definition truthy (v : option string) : bool :=
  match v with
  | Some s => negb (String.eqb s "")
  | None => false
  end.

Inductive JsError :=
  | TypeError (message : string).

Inductive result (A : Type) :=
  | Ok (a : A)
  | Throw (e : JsError).
Arguments Ok {A} a.
Arguments Throw {A} e.

(** ** Domain types (fields read by the component) *)

Module Resource.
Record t := { id : string; kind : string }.
End Resource.

Module Environment.
Record t := { name : string; resources : list string }.
End Environment.

Module ArtifactVersion.
Record t := { version : string }.
End ArtifactVersion.

Module Artifact.
Record t := { type : string; name : string; versions : list ArtifactVersion.t }.
End Artifact.

#[global] Instance Resource_eq_dec : EqDecision Resource.t.
Proof. solve_decision. Defined.
#[global] Instance Environment_eq_dec : EqDecision Environment.t.
Proof. solve_decision. Defined.
#[global] Instance ArtifactVersion_eq_dec : EqDecision ArtifactVersion.t.
Proof. solve_decision. Defined.
#[global] Instance Artifact_eq_dec : EqDecision Artifact.t.
Proof. solve_decision. Defined.

(** [ISelectedArtifactVersion] *)
Record ISelectedArtifactVersion := {
  sel_name : string;
  sel_type : string;
  sel_version : string;
}.

(** The JS object an [ISelectedArtifactVersion] value is. *)
Definition toObject (v : ISelectedArtifactVersion) : JsObject :=
  {[ "name" := sel_name v; "type" := sel_type v; "version" := sel_version v ]}.

(** ** Reading a property of a plain object *)

(** What a read finds: an own property, or the member of that name that the
    object inherits from [Object.prototype]. *)
Inductive Property (A : Type) :=
  | Own (a : A)
  | Inherited (name : string).
Arguments Own {A} a.
Arguments Inherited {A} name.

(** The property names of [Object.prototype]. *)
Definition objectPrototypeNames : list string :=
  [ "constructor"; "hasOwnProperty"; "isPrototypeOf"; "propertyIsEnumerable";
    "toLocaleString"; "toString"; "valueOf"; "__proto__";
    "__defineGetter__"; "__defineSetter__"; "__lookupGetter__";
    "__lookupSetter__" ].

(** [object[key]] on an object made by an object literal or by lodash;
    [undefined] is [None]. *)
Definition getProperty {A : Type} (object : gmap string A) (key : string)
  : option (Property A) :=
  match object !! key with
  | Some a => Some (Own a)
  | None =>
      if bool_decide (key ∈ objectPrototypeNames) then Some (Inherited key)
      else None
  end.

(** ** lodash helpers *)

(** [keyBy(collection, iteratee)]: every element is assigned under its key,
    in order, so a later element replaces an earlier one with the same key. *)
Definition keyBy {A : Type} (collection : list A) (iteratee : A → string)
  : gmap string A :=
  foldl (λ result value, <[iteratee value := value]> result) ∅ collection.

(** [pick(object, paths)] for paths that are plain property names (no ['.'],
    no ['['], not a name of [Object.prototype]), as are the three the
    component passes: copies each listed property that the object has. *)
Definition pick (object : JsObject) (paths : list string) : JsObject :=
  foldl (λ result path,
           match object !! path with
           | Some value => <[path := value]> result
           | None => result
           end) ∅ paths.

(** [isEqual(value, other)] on two values that are an object or [null]. *)
Definition isEqual (value other : option JsObject) : bool :=
  bool_decide (value = other).

(** ** Derived views of [Environments] *)

Definition resourcesById (resources : list Resource.t) : gmap string Resource.t :=
  keyBy resources Resource.id.

(** An element of a per-environment list is the read [resourcesById[id]]:
    for an id no resource has it is [undefined] ([None]), unless the id
    names a member of [Object.prototype]. *)
Definition resourcesByEnvironment (environments : list Environment.t)
    (resourcesById : gmap string Resource.t)
  : gmap string (list (option (Property Resource.t))) :=
  foldl (λ byEnvironment e,
           <[Environment.name e :=
               (λ id, getProperty resourcesById id) <$> Environment.resources e]>
             byEnvironment)
        ∅ environments.

(** [null] is [None]. *)
Definition selectedVersion (params : JsObject) : option JsObject :=
  if truthy (params !! "version")
  then Some (pick params ["type"; "name"; "version"])
  else None.

(** [selectedVersion && artifacts.find(...)]; [null] and [undefined] are
    both [None]. *)
Definition selectedArtifactDetails (selectedVersion : option JsObject)
    (artifacts : list Artifact.t) : option Artifact.t :=
  match selectedVersion with
  | None => None
  | Some sv =>
      List.find (λ a, bool_decide (Some (Artifact.type a) = sv !! "type")
                      && bool_decide (Some (Artifact.name a) = sv !! "name"))
                artifacts
  end.

(** [selectedArtifactDetails?.versions.find(...)]. *)
Definition selectedVersionDetails (selectedVersion : option JsObject)
    (selectedArtifactDetails : option Artifact.t) : option ArtifactVersion.t :=
  match selectedArtifactDetails with
  | None => None
  | Some a =>
      List.find (λ v, bool_decide
                        (Some (ArtifactVersion.version v)
                         = (selectedVersion ≫= λ sv, sv !! "version")))
                (Artifact.versions a)
  end.

(** ** Collaborators: data source, router, settings *)

Module Application.
Record t := { name : string }.
End Application.

(** [data] of the ['environments'] data source. *)
Record EnvironmentsData := {
  environments : list Environment.t;
  artifacts : list Artifact.t;
  resources : list Resource.t;
  hasManagedResources : bool;
}.

(** What [useDataSource(dataSource)] returns. *)
Record DataSourceView := {
  data : EnvironmentsData;
  status : string;
  loaded : bool;
}.

(** [SETTINGS.managedDelivery], an optional block with an optional URL. *)
Record ManagedDeliverySettings := { gettingStartedUrl : option string }.
Record Settings := { managedDelivery : option ManagedDeliverySettings }.

(** A call of the router's [go(to, params)]. *)
Inductive RouterCall :=
  | Go (to : string) (params : option JsObject).

(** State the component itself owns: the one [useState] cell. *)
Record LocalState := { isFiltersOpen : bool }.

Definition initialLocalState : LocalState := {| isFiltersOpen := false |}.

(** ** Event handlers: local state threaded, router calls logged *)

Definition Handler (A : Type) : Type :=
  LocalState → A * LocalState * list RouterCall.

Definition ret {A : Type} (a : A) : Handler A := λ st, (a, st, []).

Definition go (to : string) (params : option JsObject) : Handler unit :=
  λ st, (tt, st, [Go to params]).

Definition handlerState {A : Type} (r : A * LocalState * list RouterCall) : LocalState :=
  r.1.2.
Definition handlerCalls {A : Type} (r : A * LocalState * list RouterCall)
  : list RouterCall := r.2.

(** The [versionSelected] callback handed to [ArtifactsList]; it closes
    over the [selectedVersion] of the render that created it. *)
Definition versionSelected (selectedVersion : option JsObject)
    (clickedVersion : ISelectedArtifactVersion) : Handler unit :=
  if negb (isEqual (Some (toObject clickedVersion)) selectedVersion)
  then go (match selectedVersion with Some _ => "." | None => ".artifactVersion" end)
          (Some (toObject clickedVersion))
  else ret tt.

(** The [onRequestClose] callback handed to [ArtifactDetail]. *)
Definition onRequestClose : Handler unit := go "^" None.

(** ** Rendered output *)

Record ArtifactsListProps := {
  al_artifacts : list Artifact.t;
  al_selectedVersion : option JsObject;
  al_versionSelected : ISelectedArtifactVersion → Handler unit;
}.

Record EnvironmentsListProps := {
  el_environments : list Environment.t;
  el_artifacts : list Artifact.t;
  el_resourcesById : gmap string Resource.t;
}.

Record ArtifactDetailProps := {
  ad_application : Application.t;
  ad_name : option string;
  ad_type : option string;
  ad_version : option ArtifactVersion.t;
  ad_allVersions : list ArtifactVersion.t;
  ad_resourcesByEnvironment : gmap string (list (option (Property Resource.t)));
  ad_onRequestClose : Handler unit;
}.

(** The right-hand column: the environments list while nothing is selected,
    the artifact detail otherwise. *)
Inductive EnvironmentsColumn :=
  | EnvironmentsListColumn (props : EnvironmentsListProps)
  | ArtifactDetailColumn (props : ArtifactDetailProps).

(** The four element trees the component returns. *)
Inductive Element :=
  | ErrorMessage (text : string)
  | LoadingSpinner (size message : string)
  | UnmanagedGuidance (href : string)
  | PopulatedLayout (totalContentWidth : string)
                    (artifactsList : ArtifactsListProps)
                    (column : EnvironmentsColumn).

Inductive ViewState := ErrorState | LoadingState | UnmanagedState | PopulatedState.

Definition viewState (e : Element) : ViewState :=
  match e with
  | ErrorMessage _ => ErrorState
  | LoadingSpinner _ _ => LoadingState
  | UnmanagedGuidance _ => UnmanagedState
  | PopulatedLayout _ _ _ => PopulatedState
  end.

(** ** The component *)

Definition CONTENT_WIDTH : N := 1200.

Definition defaultGettingStartedUrl : string :=
  "https://www.spinnaker.io/guides/user/managed-delivery/getting-started/".

Definition errorText : string := "There was an error loading environments.".

(** [SETTINGS.managedDelivery?.gettingStartedUrl || defaultGettingStartedUrl] *)
Definition gettingStartedLink (SETTINGS : Settings) : string :=
  let configured := managedDelivery SETTINGS ≫= gettingStartedUrl in
  if truthy configured then default defaultGettingStartedUrl configured
  else defaultGettingStartedUrl.

Definition totalContentWidth (st : LocalState) : string :=
  if isFiltersOpen st then pretty (CONTENT_WIDTH + 248)%N +:+ "px"
  else pretty CONTENT_WIDTH +:+ "px".

(** The populated branch.  [selectedArtifactDetails.versions] is evaluated
    whenever [selectedVersion] is set, and throws when no artifact matched.
    The values of the [useMemo] calls are written as the results of their
    factories.  For the two dictionaries, [renderDerived_coherent] below
    shows that these are the values every render of a mounted instance sees.
    The dependency list of [selectedArtifactDetails] leaves out
    [selectedVersion] itself, so a render can reuse a [null] where the
    factory would give [undefined]; the two are one [None] here, and the
    message of the [TypeError] is the one for [undefined] (for a reused
    [null] the engine names [null] instead). *)
Definition environmentsColumn (app : Application.t) (d : EnvironmentsData)
    (params : JsObject) : result EnvironmentsColumn :=
  let resourcesById := resourcesById (resources d) in
  let resourcesByEnvironment :=
    resourcesByEnvironment (environments d) resourcesById in
  let selectedVersion := selectedVersion params in
  let selectedArtifactDetails :=
    selectedArtifactDetails selectedVersion (artifacts d) in
  let selectedVersionDetails :=
    selectedVersionDetails selectedVersion selectedArtifactDetails in
  match selectedVersion with
  | None =>
      Ok (EnvironmentsListColumn
            {| el_environments := environments d;
               el_artifacts := artifacts d;
               el_resourcesById := resourcesById |})
  | Some sv =>
      match selectedArtifactDetails with
      | None => Throw (TypeError "Cannot read property 'versions' of undefined")
      | Some a =>
          Ok (ArtifactDetailColumn
                {| ad_application := app;
                   ad_name := sv !! "name";
                   ad_type := sv !! "type";
                   ad_version := selectedVersionDetails;
                   ad_allVersions := Artifact.versions a;
                   ad_resourcesByEnvironment := resourcesByEnvironment;
                   ad_onRequestClose := onRequestClose |})
      end
  end.

Definition Environments (app : Application.t) (ds : DataSourceView)
    (params : JsObject) (SETTINGS : Settings) (st : LocalState)
  : result Element :=
  let d := data ds in
  let loadFailure := String.eqb (status ds) "ERROR" in
  let selectedVersion := selectedVersion params in
  if loadFailure then Ok (ErrorMessage errorText)
  else if negb (loaded ds) then
    Ok (LoadingSpinner "medium" "Loading environments ...")
  else
    let unmanaged := loaded ds && negb (hasManagedResources d) in
    let gettingStartedLink := gettingStartedLink SETTINGS in
    if unmanaged then Ok (UnmanagedGuidance gettingStartedLink)
    else
      let totalContentWidth := totalContentWidth st in
      match environmentsColumn app d params with
      | Throw e => Throw e
      | Ok column =>
          Ok (PopulatedLayout totalContentWidth
                {| al_artifacts := artifacts d;
                   al_selectedVersion := selectedVersion;
                   al_versionSelected := versionSelected selectedVersion |}
                column)
      end.

(** ** [useMemo] and the component instance

    React keeps one cell per [useMemo] call: the dependency array and the
    value of the last computation.  A render reuses the value when every
    dependency is the same ([Object.is]) as the stored one and calls the
    factory otherwise.  [Object.is] on arrays and objects is reference
    identity; on values that are never updated in place, the same reference
    is an equal value, which is all the embedding keeps of it. *)

Class ObjectIs (A : Type) := {
  object_is : A → A → bool;
  object_is_sound : ∀ x y, object_is x y = true → x = y;
}.

(** Structural comparison is one such test. *)
Definition structuralObjectIs (A : Type) `{EqDecision A} : ObjectIs A :=
  {| object_is := λ x y, bool_decide (x = y);
     object_is_sound := λ x y, bool_decide_eq_true_1 (x = y) |}.

(** A dependency array of two entries is compared entry by entry. *)
#[global] Program Instance depsObjectIs {A B : Type} `{ObjectIs A, ObjectIs B}
  : ObjectIs (A * B) :=
  {| object_is := λ x y, object_is x.1 y.1 && object_is x.2 y.2 |}.
Next Obligation.
  intros A B HA HB [a b] [a' b'] Hsame; simpl in Hsame.
  apply andb_prop in Hsame as [Ha Hb].
  by rewrite (object_is_sound _ _ Ha), (object_is_sound _ _ Hb).
Qed.

Definition MemoCell (D V : Type) : Type := option (D * V).

Definition useMemo {D V : Type} `{ObjectIs D} (cell : MemoCell D V)
    (factory : unit → V) (deps : D) : V * MemoCell D V :=
  match cell with
  | Some (deps0, value0) =>
      if object_is deps0 deps then (value0, cell)
      else let value := factory () in (value, Some (deps, value))
  | None => let value := factory () in (value, Some (deps, value))
  end.

Section Instance_.
Context `{ObjectIs (list Resource.t), ObjectIs (list Environment.t),
          ObjectIs (gmap string Resource.t)}.

(** What a mounted [Environments] holds between renders. *)
Record Hooks := {
  memo_resourcesById : MemoCell (list Resource.t) (gmap string Resource.t);
  memo_resourcesByEnvironment :
    MemoCell (list Environment.t * gmap string Resource.t)
             (gmap string (list (option (Property Resource.t))));
  local : LocalState;
}.

Definition mount : Hooks :=
  {| memo_resourcesById := None;
     memo_resourcesByEnvironment := None;
     local := initialLocalState |}.

(** The two memoised derivations of one render, in source order. *)
Definition renderDerived (h : Hooks) (d : EnvironmentsData)
  : gmap string Resource.t * gmap string (list (option (Property Resource.t))) * Hooks :=
  let '(byId, cell1) :=
    useMemo (memo_resourcesById h)
            (λ _, keyBy (resources d) Resource.id)
            (resources d) in
  let '(byEnvironment, cell2) :=
    useMemo (memo_resourcesByEnvironment h)
            (λ _, resourcesByEnvironment (environments d) byId)
            (environments d, byId) in
  (byId, byEnvironment,
   {| memo_resourcesById := cell1;
      memo_resourcesByEnvironment := cell2;
      local := local h |}).

(** Everything that can happen to a mounted instance. *)
Inductive Event :=
  | Render (d : EnvironmentsData)
  | VersionClick (selectedVersion : option JsObject)
                 (clickedVersion : ISelectedArtifactVersion)
  | RequestClose.

Definition runHandler (h : Hooks) (m : Handler unit) : Hooks :=
  {| memo_resourcesById := memo_resourcesById h;
     memo_resourcesByEnvironment := memo_resourcesByEnvironment h;
     local := handlerState (m (local h)) |}.

Definition step (h : Hooks) (ev : Event) : Hooks :=
  match ev with
  | Render d => (renderDerived h d).2
  | VersionClick sv clicked => runHandler h (versionSelected sv clicked)
  | RequestClose => runHandler h onRequestClose
  end.

Definition run (events : list Event) : Hooks := foldl step mount events.

(** The derived maps seen by a render that follows [events]. *)
Definition derivedAfter (events : list Event) (d : EnvironmentsData)
  : gmap string Resource.t * gmap string (list (option (Property Resource.t))) :=
  (renderDerived (run events) d).1.

(** A cell is coherent when its value is the factory's result on its deps. *)
Definition coherent (h : Hooks) : Prop :=
  (∀ deps value, memo_resourcesById h = Some (deps, value) →
                 value = resourcesById deps)
  ∧ (∀ deps value, memo_resourcesByEnvironment h = Some (deps, value) →
                   value = resourcesByEnvironment deps.1 deps.2).
End Instance_.

(** * The properties as the specification words them

    Each definition below follows the wording of the specification; the
    theorems compare it with the embedding of the code above. *)

(** "the ResourceSummary object in resources whose id field equals that id" *)
Definition isResourceOf (resources : list Resource.t) (id : string)
    (o : option (Property Resource.t)) : Prop :=
  ∃ r, o = Some (Own r) ∧ r ∈ resources ∧ Resource.id r = id.

(** An id that no resource of the collection has. *)
Definition unmatched (resources : list Resource.t) (id : string) : Prop :=
  ∀ r, r ∈ resources → Resource.id r ≠ id.

(** "for each environment in environments, resourcesByEnvironment maps that
    environment's name to the list obtained by replacing each resource id
    ... in the same order" *)
Definition groupsEveryEnvironment (environments : list Environment.t)
    (resources : list Resource.t) : Prop :=
  ∀ e, e ∈ environments →
    ∃ l, resourcesByEnvironment environments (resourcesById resources)
           !! Environment.name e = Some l
         ∧ Forall2 (isResourceOf resources) (Environment.resources e) l.

(** "for every environment whose resource-id list contains an id with no
    matching resource ... an entry for that environment whose list has the
    same length as the id list, with an undefined element at each position
    of an unmatched id" *)
Definition keepsUnmatchedPositions (environments : list Environment.t)
    (resources : list Resource.t) : Prop :=
  ∀ e, e ∈ environments →
    (∃ id, id ∈ Environment.resources e ∧ unmatched resources id) →
    ∃ l, resourcesByEnvironment environments (resourcesById resources)
           !! Environment.name e = Some l
         ∧ length l = length (Environment.resources e)
         ∧ ∀ k id, Environment.resources e !! k = Some id →
                   unmatched resources id → l !! k = Some None.

(** "if params contains type, name, and version, then selectedVersion equals
    exactly the triple ...; if any one of type, name, or version is absent
    from params, then selectedVersion is null" *)
Definition selectedVersionSpec (params : JsObject) : Prop :=
  (∀ t n v, params !! "type" = Some t → params !! "name" = Some n →
            params !! "version" = Some v →
            selectedVersion params
            = Some {[ "type" := t; "name" := n; "version" := v ]})
  ∧ (params !! "type" = None ∨ params !! "name" = None
     ∨ params !! "version" = None →
     selectedVersion params = None).

(** "For every input state in which loaded is false, the component's render
    output is only the loading indicator" *)
Definition loadingSpec (app : Application.t) (ds : DataSourceView)
    (params : JsObject) (SETTINGS : Settings) (st : LocalState) : Prop :=
  loaded ds = false →
  Environments app ds params SETTINGS st
  = Ok (LoadingSpinner "medium" "Loading environments ...").

(** "the configured SETTINGS.managedDelivery.gettingStartedUrl when that
    setting is present, and the default getting-started URL otherwise" *)
Definition configuredOrDefaultUrl (SETTINGS : Settings) : string :=
  match managedDelivery SETTINGS ≫= gettingStartedUrl with
  | Some url => url
  | None => defaultGettingStartedUrl
  end.

(** "For every input state in which loaded is true and hasManagedResources
    is false, the component renders the empty/unmanaged guidance whose
    getting-started link equals ..." *)
Definition unmanagedSpec (app : Application.t) (ds : DataSourceView)
    (params : JsObject) (SETTINGS : Settings) (st : LocalState) : Prop :=
  loaded ds = true → hasManagedResources (data ds) = false →
  Environments app ds params SETTINGS st
  = Ok (UnmanagedGuidance (configuredOrDefaultUrl SETTINGS)).

(** "the component produces exactly one of four mutually exclusive view
    states": the render returns an element, which is in one state. *)
Definition rendersOneViewState (app : Application.t) (ds : DataSourceView)
    (params : JsObject) (SETTINGS : Settings) (st : LocalState) : Prop :=
  ∃ e, Environments app ds params SETTINGS st = Ok e.

(** ** The assignment loop shared by [keyBy] and [resourcesByEnvironment] *)

Definition assignAll {A V : Type} (key : A → string) (val : A → V)
    (l : list A) : gmap string V :=
  foldl (λ m x, <[key x := val x]> m) ∅ l.

(** * Sample data and auxiliary definitions *)

Definition sampleResource : Resource.t :=
  {| Resource.id := "ec2:cluster:test:keel"; Resource.kind := "ec2/cluster@v1" |}.

Definition shadowedEnvironments : list Environment.t :=
  [ {| Environment.name := "test";
       Environment.resources := ["ec2:cluster:test:keel"] |};
    {| Environment.name := "test"; Environment.resources := [] |} ].

Definition testEnvironment : Environment.t :=
  {| Environment.name := "test";
     Environment.resources := ["ec2:cluster:test:keel"] |}.

Definition danglingEnvironment : Environment.t :=
  {| Environment.name := "prod";
     Environment.resources := ["ec2:cluster:test:keel"; "ec2:cluster:prod:keel"] |}.

Definition constructorEnvironment : Environment.t :=
  {| Environment.name := "test"; Environment.resources := ["constructor"] |}.

Definition keelApp : Application.t := {| Application.name := "keel" |}.

Definition keelArtifact : Artifact.t :=
  {| Artifact.type := "deb"; Artifact.name := "keel";
     Artifact.versions := [ {| ArtifactVersion.version := "1.0.0" |} ] |}.

Definition keelData (managed : bool) : EnvironmentsData :=
  {| environments := [testEnvironment; danglingEnvironment];
     artifacts := [keelArtifact];
     resources := [sampleResource];
     hasManagedResources := managed |}.

Definition noSettings : Settings := {| managedDelivery := None |}.

(** The state the guards of the render select. *)
Definition selectedState (ds : DataSourceView) : ViewState :=
  if String.eqb (status ds) "ERROR" then ErrorState
  else if negb (loaded ds) then LoadingState
  else if negb (hasManagedResources (data ds)) then UnmanagedState
  else PopulatedState.

Definition settingsWithUrl (url : string) : Settings :=
  {| managedDelivery := Some {| gettingStartedUrl := Some url |} |}.

Definition fetched (managed : bool) : DataSourceView :=
  {| data := keelData managed; status := "FETCHED"; loaded := true |}.

Definition keelVersion : ISelectedArtifactVersion :=
  {| sel_name := "keel"; sel_type := "deb"; sel_version := "1.0.0" |}.

Definition resourcesObjectIs : ObjectIs (list Resource.t) :=
  structuralObjectIs (list Resource.t).

Definition environmentsObjectIs : ObjectIs (list Environment.t) :=
  structuralObjectIs (list Environment.t).

Definition byIdObjectIs : ObjectIs (gmap string Resource.t) :=
  structuralObjectIs (gmap string Resource.t).

Definition prodResource : Resource.t :=
  {| Resource.id := "ec2:cluster:prod:keel"; Resource.kind := "ec2/cluster@v1" |}.

Definition keelParams : JsObject :=
  {[ "application" := "keel"; "type" := "deb"; "name" := "keel";
     "version" := "1.0.0" ]}.

(** An artifact has the type and name the selection holds. *)
Definition artifactMatches (sv : JsObject) (a : Artifact.t) : Prop :=
  sv !! "type" = Some (Artifact.type a) ∧ sv !! "name" = Some (Artifact.name a).

(** The dependency list of the [selectedArtifactDetails] memo:
    [[selectedVersion?.type, selectedVersion?.name, artifacts]]. *)
Definition selectedArtifactDetailsDeps (selectedVersion : option JsObject)
    (artifacts : list Artifact.t)
  : option string * option string * list Artifact.t :=
  (selectedVersion ≫= (λ sv, sv !! "type"),
   selectedVersion ≫= (λ sv, sv !! "name"),
   artifacts).

(** * Properties *)

(** ** Dictionaries built by assigning in a loop *)

Section AssignLoop.
Context {A V : Type} (key : A → string) (val : A → V).

Lemma assignAll_snoc l x :
  assignAll key val (l ++ [x]) = <[key x := val x]> (assignAll key val l).
Proof. unfold assignAll. by rewrite foldl_app. Qed.

(** No element has the key: the key is not in the dictionary. *)
Lemma assignAll_lookup_None l k :
  (∀ x, x ∈ l → key x ≠ k) → assignAll key val l !! k = None.
Proof.
  induction l as [|x l IH] using rev_ind; intros Hk; [done|].
  rewrite assignAll_snoc, lookup_insert_ne.
  - apply IH. intros y Hy. apply Hk. set_solver.
  - apply Hk. set_solver.
Qed.

(** What is stored under a key comes from an element with that key. *)
Lemma assignAll_lookup_Some l k v :
  assignAll key val l !! k = Some v → ∃ x, x ∈ l ∧ key x = k ∧ val x = v.
Proof.
  induction l as [|x l IH] using rev_ind; [done|].
  rewrite assignAll_snoc. destruct (decide (key x = k)) as [<-|Hne].
  - rewrite lookup_insert_eq. intros [= <-]. exists x. set_solver.
  - rewrite lookup_insert_ne by done. intros Hv.
    destruct (IH Hv) as (y & Hy & ? & ?). exists y. set_solver.
Qed.

(** The last element with a given key decides what is stored under it. *)
Lemma assignAll_lookup_last l i x :
  l !! i = Some x →
  (∀ j y, i < j → l !! j = Some y → key y ≠ key x) →
  assignAll key val l !! key x = Some (val x).
Proof.
  revert i. induction l as [|z l IH] using rev_ind; intros i Hi Hlast; [done|].
  rewrite assignAll_snoc.
  destruct (decide (i = length l)) as [->|Hne].
  - rewrite lookup_app_r, Nat.sub_diag in Hi by lia. injection Hi as ->.
    apply lookup_insert_eq.
  - assert (i < length l) as Hlt.
    { apply lookup_lt_Some in Hi. rewrite length_app in Hi. simpl in Hi. lia. }
    rewrite lookup_app_l in Hi by done.
    rewrite lookup_insert_ne.
    + apply (IH i Hi). intros j y Hj Hy. apply (Hlast j y Hj).
      by apply lookup_app_l_Some.
    + apply (Hlast (length l) z Hlt).
      rewrite lookup_app_r, Nat.sub_diag by lia. done.
Qed.
End AssignLoop.

Lemma keyBy_assignAll {A : Type} (l : list A) (f : A → string) :
  keyBy l f = assignAll f (λ x, x) l.
Proof. reflexivity. Qed.

Lemma resourcesByEnvironment_assignAll envs byId :
  resourcesByEnvironment envs byId
  = assignAll Environment.name
      (λ e, (λ id, getProperty byId id) <$> Environment.resources e) envs.
Proof. reflexivity. Qed.

(** ** [resourcesById] *)

(** An id some resource has is mapped to a resource of [resources] with
    that id. *)
Lemma resourcesById_matched resources id :
  (∃ r, r ∈ resources ∧ Resource.id r = id) →
  ∃ r, resourcesById resources !! id = Some r
       ∧ r ∈ resources ∧ Resource.id r = id.
Proof.
  intros (r0 & Hin & Hid). unfold resourcesById. rewrite keyBy_assignAll.
  destruct (assignAll Resource.id (λ x, x) resources !! id) as [r|] eqn:Hl.
  - apply assignAll_lookup_Some in Hl as (x & ? & ? & ->). eauto.
  - exfalso. induction resources as [|z l IH] using rev_ind; [set_solver|].
    rewrite assignAll_snoc in Hl.
    destruct (decide (Resource.id z = id)) as [<-|Hne].
    + by rewrite lookup_insert_eq in Hl.
    + rewrite lookup_insert_ne in Hl by done. apply IH; [|done].
      set_solver.
Qed.

(** An id no resource has is not a key. *)
Lemma resourcesById_unmatched resources id :
  (∀ r, r ∈ resources → Resource.id r ≠ id) →
  resourcesById resources !! id = None.
Proof.
  intros Hno. unfold resourcesById. rewrite keyBy_assignAll.
  by apply assignAll_lookup_None.
Qed.

(** With several resources of one id, the last one is kept. *)
Lemma resourcesById_last resources i r :
  resources !! i = Some r →
  (∀ j r', i < j → resources !! j = Some r' → Resource.id r' ≠ Resource.id r) →
  resourcesById resources !! Resource.id r = Some r.
Proof.
  intros Hi Hlast. unfold resourcesById. rewrite keyBy_assignAll.
  by apply (assignAll_lookup_last Resource.id (λ x, x) resources i r).
Qed.

(** ** Reads of [resourcesById] *)

Lemma getProperty_own {A : Type} (object : gmap string A) (key : string) (a : A) :
  object !! key = Some a → getProperty object key = Some (Own a).
Proof. intros Hown. unfold getProperty. by rewrite Hown. Qed.

Lemma getProperty_undefined {A : Type} (object : gmap string A) (key : string) :
  object !! key = None → key ∉ objectPrototypeNames →
  getProperty object key = None.
Proof.
  intros Hnone Hname. unfold getProperty.
  by rewrite Hnone, bool_decide_eq_false_2.
Qed.

Lemma getProperty_inherited {A : Type} (object : gmap string A) (key : string) :
  object !! key = None → key ∈ objectPrototypeNames →
  getProperty object key = Some (Inherited key).
Proof.
  intros Hnone Hname. unfold getProperty.
  by rewrite Hnone, bool_decide_eq_true_2.
Qed.

(** ** [resourcesByEnvironment] *)

(** The entry under an environment's name is built from the last
    environment of that name. *)
Lemma resourcesByEnvironment_lookup environments byId i e :
  environments !! i = Some e →
  (∀ j e', i < j → environments !! j = Some e' →
           Environment.name e' ≠ Environment.name e) →
  resourcesByEnvironment environments byId !! Environment.name e
  = Some ((λ id, getProperty byId id) <$> Environment.resources e).
Proof.
  intros Hi Hlast. rewrite resourcesByEnvironment_assignAll.
  by apply (assignAll_lookup_last Environment.name
              (λ e, (λ id, getProperty byId id) <$> Environment.resources e)
              environments i e).
Qed.

(** Two environments of one name: the entry under the name is the second
    one's (empty) list, so the first environment's id is not replaced by
    its resource. *)
Lemma shadowed_environment_entry :
  ¬ groupsEveryEnvironment shadowedEnvironments [sampleResource].
Proof.
  intros Hspec.
  destruct (Hspec {| Environment.name := "test";
                     Environment.resources := ["ec2:cluster:test:keel"] |})
    as (l & Hl & Hall).
  - unfold shadowedEnvironments. set_solver.
  - vm_compute in Hl. injection Hl as <-. inversion Hall.
Qed.

(** C2 (amended): for every environments and resources, and every
    environment that no later environment of the list shares its name with,
    [resourcesByEnvironment] maps the environment's name to the list that
    has, position by position and in the order of the environment's id list,
    [resourcesById[id]] for the id listed there; for an id that a resource
    has, that element is a resource of [resources] with this id. *)
Theorem resourcesByEnvironment_groups environments resources i e :
  environments !! i = Some e →
  (∀ j e', i < j → environments !! j = Some e' →
           Environment.name e' ≠ Environment.name e) →
  ∃ l, resourcesByEnvironment environments (resourcesById resources)
         !! Environment.name e = Some l
       ∧ (∀ k id, Environment.resources e !! k = Some id →
                  l !! k = Some (getProperty (resourcesById resources) id))
       ∧ (Forall (λ id, ∃ r, r ∈ resources ∧ Resource.id r = id)
                 (Environment.resources e) →
          Forall2 (isResourceOf resources) (Environment.resources e) l).
Proof.
  intros Hi Hlast. eexists. split; [by eapply resourcesByEnvironment_lookup|].
  split.
  - intros k id Hk. by rewrite list_lookup_fmap, Hk.
  - intros Hall. apply Forall2_fmap_r, Forall_Forall2_diag.
    eapply Forall_impl; [exact Hall|]. intros id Hid.
    destruct (resourcesById_matched resources id Hid) as (r & Hr & ? & ?).
    exists r. by rewrite (getProperty_own _ _ _ Hr).
Qed.

Lemma resourcesByEnvironment_groups_witness :
  ∃ l, resourcesByEnvironment [testEnvironment; danglingEnvironment]
         (resourcesById [sampleResource]) !! "test" = Some l
       ∧ (∀ k id, Environment.resources testEnvironment !! k = Some id →
                  l !! k = Some (getProperty (resourcesById [sampleResource]) id))
       ∧ (Forall (λ id, ∃ r, r ∈ [sampleResource] ∧ Resource.id r = id)
                 (Environment.resources testEnvironment) →
          Forall2 (isResourceOf [sampleResource])
                  (Environment.resources testEnvironment) l).
Proof.
  apply (resourcesByEnvironment_groups [testEnvironment; danglingEnvironment]
           [sampleResource] 0 testEnvironment).
  - reflexivity.
  - intros j e' Hj Hlookup.
    destruct j as [|[|j]]; [lia | | discriminate Hlookup].
    injection Hlookup as <-. discriminate.
Defined.

(** The first environment lists an id no resource has, yet the entry under
    its name has length 0, not 1.  And an unmatched id that names a member
    of [Object.prototype] is replaced by that member, not by [undefined]. *)
Lemma unmatched_shadowed_or_inherited :
  ¬ keepsUnmatchedPositions shadowedEnvironments []
  ∧ ¬ keepsUnmatchedPositions [constructorEnvironment] [sampleResource].
Proof.
  split; intros Hspec.
  - destruct (Hspec {| Environment.name := "test";
                       Environment.resources := ["ec2:cluster:test:keel"] |})
      as (l & Hl & Hlen & _).
    + unfold shadowedEnvironments. set_solver.
    + exists "ec2:cluster:test:keel". split; [set_solver|].
      intros r Hr. set_solver.
    + vm_compute in Hl. injection Hl as <-. discriminate Hlen.
  - assert (unmatched [sampleResource] "constructor") as Hno.
    { intros r Hr. apply list_elem_of_singleton in Hr as ->. discriminate. }
    destruct (Hspec constructorEnvironment) as (l & Hl & _ & Hpos).
    + set_solver.
    + exists "constructor". split; [|done].
      unfold constructorEnvironment; simpl. set_solver.
    + specialize (Hpos 0 "constructor" eq_refl Hno).
      vm_compute in Hl. injection Hl as <-. discriminate Hpos.
Qed.

(** C10 (amended): for every environment that no later environment of the
    list shares its name with, and whose id list contains an id no resource
    has, [resourcesByEnvironment] has an entry under the environment's name,
    of the length of the id list, whose element is [undefined] at each
    position of an unmatched id that is not a property name of
    [Object.prototype]; at the position of an unmatched id that is such a
    name, the element is the inherited member. *)
Theorem unmatched_ids_kept_undefined environments resources i e :
  environments !! i = Some e →
  (∀ j e', i < j → environments !! j = Some e' →
           Environment.name e' ≠ Environment.name e) →
  (∃ id, id ∈ Environment.resources e ∧ unmatched resources id) →
  ∃ l, resourcesByEnvironment environments (resourcesById resources)
         !! Environment.name e = Some l
       ∧ length l = length (Environment.resources e)
       ∧ (∀ k id, Environment.resources e !! k = Some id →
                  unmatched resources id → id ∉ objectPrototypeNames →
                  l !! k = Some None)
       ∧ (∀ k id, Environment.resources e !! k = Some id →
                  unmatched resources id → id ∈ objectPrototypeNames →
                  l !! k = Some (Some (Inherited id))).
Proof.
  intros Hi Hlast _. eexists. split; [by eapply resourcesByEnvironment_lookup|].
  split; [by rewrite length_fmap|].
  split; intros k id Hk Hno Hname; rewrite list_lookup_fmap, Hk; simpl.
  - by rewrite (getProperty_undefined _ _ (resourcesById_unmatched _ _ Hno)).
  - by rewrite (getProperty_inherited _ _ (resourcesById_unmatched _ _ Hno)).
Qed.

Lemma unmatched_ids_kept_undefined_witness :
  ∃ l, resourcesByEnvironment [danglingEnvironment] (resourcesById [sampleResource])
         !! "prod" = Some l
       ∧ length l = 2
       ∧ (∀ k id, Environment.resources danglingEnvironment !! k = Some id →
                  unmatched [sampleResource] id → id ∉ objectPrototypeNames →
                  l !! k = Some None)
       ∧ (∀ k id, Environment.resources danglingEnvironment !! k = Some id →
                  unmatched [sampleResource] id → id ∈ objectPrototypeNames →
                  l !! k = Some (Some (Inherited id))).
Proof.
  apply (unmatched_ids_kept_undefined [danglingEnvironment] [sampleResource]
           0 danglingEnvironment).
  - reflexivity.
  - intros j e' Hj Hlookup. destruct j as [|j]; [lia | discriminate Hlookup].
  - exists "ec2:cluster:prod:keel". split.
    + unfold danglingEnvironment; simpl. set_solver.
    + intros r Hr. apply list_elem_of_singleton in Hr as ->. discriminate.
Defined.

(** ** [selectedVersion] *)

Lemma pick_lookup object paths k :
  pick object paths !! k
  = if bool_decide (k ∈ paths) then object !! k else None.
Proof.
  unfold pick. induction paths as [|p paths IH] using rev_ind; [done|].
  rewrite foldl_app; simpl.
  destruct (decide (p = k)) as [->|Hne].
  - rewrite bool_decide_eq_true_2 by set_solver.
    destruct (object !! k) as [v|] eqn:Hk.
    + by rewrite lookup_insert_eq.
    + rewrite IH. by case_bool_decide.
  - assert (k ∈ (paths ++ [p])%list ↔ k ∈ paths) as Hiff by set_solver.
    rewrite (bool_decide_ext _ _ Hiff).
    destruct (object !! p); [by rewrite lookup_insert_ne|done].
Qed.

Lemma truthy_false_iff v : truthy v = false ↔ v = None ∨ v = Some "".
Proof.
  destruct v as [s|]; simpl; [|naive_solver].
  destruct (String.eqb_spec s ""); naive_solver.
Qed.

(** Params without [type], and params whose [version] is the empty string. *)
Lemma selectedVersion_guard_is_version_only :
  ¬ selectedVersionSpec {[ "name" := "keel"; "version" := "1.0.0" ]}
  ∧ ¬ selectedVersionSpec {[ "type" := "deb"; "name" := "keel"; "version" := "" ]}.
Proof.
  split.
  - intros [_ Habsent]. assert (Hnull := Habsent (or_introl eq_refl)).
    vm_compute in Hnull. discriminate Hnull.
  - intros [Hall _].
    assert (Htriple := Hall "deb" "keel" "" eq_refl eq_refl eq_refl).
    vm_compute in Htriple. discriminate Htriple.
Qed.

(** C1 (amended): [selectedVersion] is null exactly when [params.version]
    is absent or the empty string, whatever [type] and [name] are; otherwise
    it is the object that has, of the properties [type], [name] and
    [version], those that params has, with their values in params, and no
    other property.  So when params contains [type], [name] and a non-empty
    [version], [selectedVersion] is exactly that triple. *)
Theorem selectedVersion_from_params (params : JsObject) :
  (selectedVersion params = None
   ↔ params !! "version" = None ∨ params !! "version" = Some "")
  ∧ (∀ sv, selectedVersion params = Some sv →
       ∀ k, sv !! k = if bool_decide (k ∈ ["type"; "name"; "version"])
                      then params !! k else None)
  ∧ (∀ t n v, params !! "type" = Some t → params !! "name" = Some n →
              params !! "version" = Some v → v ≠ "" →
              selectedVersion params
              = Some {[ "type" := t; "name" := n; "version" := v ]}).
Proof.
  unfold selectedVersion. split; [|split].
  - rewrite <- truthy_false_iff.
    destruct (truthy (params !! "version")); naive_solver.
  - intros sv Hsv k.
    destruct (truthy (params !! "version")); [|done].
    injection Hsv as <-. apply pick_lookup.
  - intros t n v Ht Hn Hv Hne.
    assert (truthy (params !! "version") = true) as ->.
    { rewrite Hv. simpl. by destruct (String.eqb_spec v ""). }
    f_equal. apply map_eq. intros k. rewrite pick_lookup.
    case_bool_decide as Hk.
    + repeat (apply elem_of_cons in Hk as [->|Hk]); [| | |set_solver];
        by simplify_map_eq.
    + assert (k ≠ "type" ∧ k ≠ "name" ∧ k ≠ "version") as (? & ? & ?)
        by set_solver.
      by simplify_map_eq.
Qed.

Lemma selectedVersion_from_params_witness :
  selectedVersion {[ "application" := "keel"; "type" := "deb";
                     "name" := "keel"; "version" := "1.0.0" ]}
  = Some {[ "type" := "deb"; "name" := "keel"; "version" := "1.0.0" ]}.
Proof.
  apply (proj2 (proj2 (selectedVersion_from_params
           {[ "application" := "keel"; "type" := "deb";
              "name" := "keel"; "version" := "1.0.0" ]}))
           "deb" "keel" "1.0.0"); [reflexivity..|discriminate].
Defined.

(** ** The render branches *)

Lemma status_eqb_ERROR s : String.eqb s "ERROR" = true ↔ s = "ERROR".
Proof. apply String.eqb_eq. Qed.

Lemma status_eqb_not_ERROR s : s ≠ "ERROR" → String.eqb s "ERROR" = false.
Proof. by intros H; apply String.eqb_neq. Qed.

(** Every render either returns an element in the state its guards select,
    or throws; it throws only on the populated branch, when a version is
    selected and no artifact has the selected type and name. *)
Lemma Environments_cases app ds params SETTINGS st :
  match Environments app ds params SETTINGS st with
  | Ok e => viewState e = selectedState ds
  | Throw _ =>
      selectedState ds = PopulatedState
      ∧ is_Some (selectedVersion params)
      ∧ selectedArtifactDetails (selectedVersion params) (artifacts (data ds))
        = None
  end.
Proof.
  unfold Environments, selectedState, environmentsColumn.
  destruct (String.eqb (status ds) "ERROR"); [done|].
  destruct (loaded ds); simpl; [|done].
  destruct (hasManagedResources (data ds)); simpl; [|done].
  destruct (selectedVersion params) as [sv|]; [|done].
  destruct (selectedArtifactDetails (Some sv) (artifacts (data ds))); eauto.
Qed.

(** C3: with the data source fetched, loaded and managed, and a route that
    selects a version of an artifact the data does not contain, the render
    throws instead of returning one of the four views. *)
Theorem Environments_throws_on_unknown_artifact :
  Environments keelApp
    {| data := keelData true; status := "FETCHED"; loaded := true |}
    {[ "type" := "docker"; "name" := "keel"; "version" := "1.0.0" ]}
    noSettings initialLocalState
  = Throw (TypeError "Cannot read property 'versions' of undefined")
  ∧ ¬ rendersOneViewState keelApp
        {| data := keelData true; status := "FETCHED"; loaded := true |}
        {[ "type" := "docker"; "name" := "keel"; "version" := "1.0.0" ]}
        noSettings initialLocalState.
Proof.
  assert (Environments keelApp
            {| data := keelData true; status := "FETCHED"; loaded := true |}
            {[ "type" := "docker"; "name" := "keel"; "version" := "1.0.0" ]}
            noSettings initialLocalState
          = Throw (TypeError "Cannot read property 'versions' of undefined"))
    as Hthrow by (vm_compute; reflexivity).
  split; [exact Hthrow|]. intros [e He]. rewrite Hthrow in He. discriminate He.
Qed.

(** C4: whenever the status of the data source is ['ERROR'], the render is
    the static error message and nothing else, whatever the other inputs. *)
Theorem Environments_error app ds params SETTINGS st :
  status ds = "ERROR" →
  Environments app ds params SETTINGS st
  = Ok (ErrorMessage "There was an error loading environments.").
Proof.
  intros Herr. unfold Environments.
  by rewrite (proj2 (status_eqb_ERROR _) Herr).
Qed.

Lemma Environments_error_witness :
  Environments keelApp
    {| data := keelData true; status := "ERROR"; loaded := true |}
    {[ "type" := "deb"; "name" := "keel"; "version" := "1.0.0" ]}
    noSettings initialLocalState
  = Ok (ErrorMessage "There was an error loading environments.").
Proof. apply Environments_error. reflexivity. Defined.

(** C9: with status ['ERROR'] and [loaded] false, the render is the error
    message: its view state is the error state, not the loading state. *)
Theorem error_precedes_loading app ds params SETTINGS st :
  status ds = "ERROR" → loaded ds = false →
  ∃ e, Environments app ds params SETTINGS st = Ok e
       ∧ e = ErrorMessage errorText
       ∧ viewState e = ErrorState
       ∧ viewState e ≠ LoadingState.
Proof.
  intros Herr _. exists (ErrorMessage errorText). unfold Environments.
  by rewrite (proj2 (status_eqb_ERROR _) Herr).
Qed.

Lemma error_precedes_loading_witness :
  ∃ e, Environments keelApp
         {| data := keelData false; status := "ERROR"; loaded := false |}
         ∅ noSettings initialLocalState = Ok e
       ∧ e = ErrorMessage errorText
       ∧ viewState e = ErrorState
       ∧ viewState e ≠ LoadingState.
Proof. apply error_precedes_loading; reflexivity. Defined.

(** Not loaded, but the status is ['ERROR']: the error message is rendered. *)
Lemma not_loaded_with_error_status :
  ¬ loadingSpec keelApp
      {| data := keelData false; status := "ERROR"; loaded := false |}
      ∅ noSettings initialLocalState.
Proof. intros Hspec. specialize (Hspec eq_refl). vm_compute in Hspec. discriminate Hspec. Qed.

(** C5 (amended): whenever [loaded] is false and the status is not
    ['ERROR'], the render is the loading indicator and nothing else. *)
Theorem Environments_loading app ds params SETTINGS st :
  status ds ≠ "ERROR" → loaded ds = false →
  Environments app ds params SETTINGS st
  = Ok (LoadingSpinner "medium" "Loading environments ...").
Proof.
  intros Hok Hloaded. unfold Environments.
  by rewrite (status_eqb_not_ERROR _ Hok), Hloaded.
Qed.

Lemma Environments_loading_witness :
  Environments keelApp
    {| data := keelData false; status := "FETCHING"; loaded := false |}
    ∅ noSettings initialLocalState
  = Ok (LoadingSpinner "medium" "Loading environments ...").
Proof. apply Environments_loading; [discriminate|reflexivity]. Defined.

(** Loaded and unmanaged, but the status is ['ERROR']: the error message is
    rendered.  And with the setting present but empty, the link is the
    default URL. *)
Lemma unmanaged_error_or_empty_url :
  ¬ unmanagedSpec keelApp
      {| data := keelData false; status := "ERROR"; loaded := true |}
      ∅ noSettings initialLocalState
  ∧ ¬ unmanagedSpec keelApp
        {| data := keelData false; status := "FETCHED"; loaded := true |}
        ∅ (settingsWithUrl "") initialLocalState.
Proof.
  split; intros Hspec; specialize (Hspec eq_refl eq_refl);
    vm_compute in Hspec; discriminate Hspec.
Qed.

Lemma gettingStartedLink_cases SETTINGS :
  gettingStartedLink SETTINGS
  = match managedDelivery SETTINGS ≫= gettingStartedUrl with
    | Some url => if decide (url = "") then defaultGettingStartedUrl else url
    | None => defaultGettingStartedUrl
    end.
Proof.
  unfold gettingStartedLink.
  destruct (managedDelivery SETTINGS ≫= gettingStartedUrl) as [url|]; [|done].
  simpl. destruct (String.eqb_spec url ""); by case_decide.
Qed.

(** C6 (amended): whenever the status is not ['ERROR'], [loaded] is true and
    [hasManagedResources] is false, the render is the empty/unmanaged
    guidance, whose getting-started link is
    [SETTINGS.managedDelivery.gettingStartedUrl] when that setting is present
    and not the empty string, and the default getting-started URL
    otherwise. *)
Theorem Environments_unmanaged app ds params SETTINGS st :
  status ds ≠ "ERROR" → loaded ds = true →
  hasManagedResources (data ds) = false →
  ∃ href, Environments app ds params SETTINGS st = Ok (UnmanagedGuidance href)
          ∧ (∀ url, managedDelivery SETTINGS ≫= gettingStartedUrl = Some url →
                    url ≠ "" → href = url)
          ∧ (managedDelivery SETTINGS ≫= gettingStartedUrl = None
             ∨ managedDelivery SETTINGS ≫= gettingStartedUrl = Some "" →
             href = defaultGettingStartedUrl).
Proof.
  intros Hok Hloaded Hunmanaged. exists (gettingStartedLink SETTINGS).
  split; [|split].
  - unfold Environments.
    by rewrite (status_eqb_not_ERROR _ Hok), Hloaded, Hunmanaged.
  - intros url Hurl Hne. rewrite gettingStartedLink_cases, Hurl.
    by case_decide.
  - intros [Hnone|Hempty]; rewrite gettingStartedLink_cases.
    + by rewrite Hnone.
    + by rewrite Hempty.
Qed.

Lemma Environments_unmanaged_witness :
  ∃ href, Environments keelApp
            {| data := keelData false; status := "FETCHED"; loaded := true |}
            ∅ (settingsWithUrl "https://docs.example.com/md") initialLocalState
          = Ok (UnmanagedGuidance href)
          ∧ (∀ url, managedDelivery (settingsWithUrl "https://docs.example.com/md")
                      ≫= gettingStartedUrl = Some url →
                    url ≠ "" → href = url)
          ∧ (managedDelivery (settingsWithUrl "https://docs.example.com/md")
               ≫= gettingStartedUrl = None
             ∨ managedDelivery (settingsWithUrl "https://docs.example.com/md")
                 ≫= gettingStartedUrl = Some "" →
             href = defaultGettingStartedUrl).
Proof.
  apply Environments_unmanaged; [discriminate|reflexivity|reflexivity].
Defined.

(** ** The [versionSelected] handler *)

Lemma Environments_populated_artifactsList app ds params SETTINGS st w al col :
  Environments app ds params SETTINGS st = Ok (PopulatedLayout w al col) →
  al_selectedVersion al = selectedVersion params
  ∧ al_versionSelected al = versionSelected (selectedVersion params).
Proof.
  unfold Environments.
  destruct (String.eqb (status ds) "ERROR"); [done|].
  destruct (negb (loaded ds)); [done|].
  destruct (loaded ds && negb (hasManagedResources (data ds))); [done|].
  destruct (environmentsColumn app (data ds) params); [|done].
  by intros [= <- <- <-].
Qed.

Lemma versionSelected_calls sv clicked st :
  handlerState (versionSelected sv clicked st) = st
  ∧ handlerCalls (versionSelected sv clicked st)
    = if decide (sv = Some (toObject clicked)) then []
      else [Go (match sv with Some _ => "." | None => ".artifactVersion" end)
               (Some (toObject clicked))].
Proof.
  unfold versionSelected, isEqual.
  case_bool_decide as Heq; case_decide as Heq'; try done; congruence.
Qed.

(** C8: in the populated view, a click on a version leaves the component's
    local state as it was; it calls [go] if and only if the clicked version
    is not the selected one, and then exactly once, with the clicked version
    as params, to ['.artifactVersion'] when no version is selected and to
    ['.'] otherwise. *)
Theorem versionSelected_navigates app ds params SETTINGS st w al col
    (clicked : ISelectedArtifactVersion) (st' : LocalState) :
  Environments app ds params SETTINGS st = Ok (PopulatedLayout w al col) →
  handlerState (al_versionSelected al clicked st') = st'
  ∧ ((∃ to ps, Go to ps ∈ handlerCalls (al_versionSelected al clicked st'))
     ↔ selectedVersion params ≠ Some (toObject clicked))
  ∧ (selectedVersion params ≠ Some (toObject clicked) →
     handlerCalls (al_versionSelected al clicked st')
     = [Go (match selectedVersion params with
            | Some _ => "."
            | None => ".artifactVersion"
            end)
           (Some (toObject clicked))]).
Proof.
  intros Hrender.
  destruct (Environments_populated_artifactsList _ _ _ _ _ _ _ _ Hrender)
    as [_ ->].
  destruct (versionSelected_calls (selectedVersion params) clicked st')
    as [Hst Hcalls].
  split; [exact Hst|]. rewrite Hcalls. case_decide as Heq.
  - split; [|done]. split; [|done]. intros (to & ps & Hin). set_solver.
  - split; [|done]. split; [done|]. intros _. eexists _, _.
    apply list_elem_of_singleton. reflexivity.
Qed.

Lemma versionSelected_navigates_witness :
  ∃ w al col,
    Environments keelApp (fetched true) ∅ noSettings initialLocalState
    = Ok (PopulatedLayout w al col)
    ∧ handlerState (al_versionSelected al keelVersion initialLocalState)
      = initialLocalState
    ∧ handlerCalls (al_versionSelected al keelVersion initialLocalState)
      = [Go ".artifactVersion" (Some (toObject keelVersion))].
Proof.
  destruct (Environments keelApp (fetched true) ∅ noSettings initialLocalState)
    as [[| | |w al col]|] eqn:Hrender;
    try (vm_compute in Hrender; discriminate Hrender).
  exists w, al, col. split; [reflexivity|].
  destruct (versionSelected_navigates keelApp (fetched true) ∅ noSettings
              initialLocalState w al col keelVersion initialLocalState Hrender)
    as (Hst & _ & Hcalls).
  split; [exact Hst|]. apply Hcalls. discriminate.
Defined.

(** ** The memoised derivations *)

Section Memo.
Context `{ObjectIs (list Resource.t), ObjectIs (list Environment.t),
          ObjectIs (gmap string Resource.t)}.

Lemma useMemo_value {D V : Type} `{ObjectIs D} (f : D → V)
    (cell : MemoCell D V) (deps : D) :
  (∀ d v, cell = Some (d, v) → v = f d) →
  (useMemo cell (λ _, f deps) deps).1 = f deps.
Proof.
  intros Hcell. unfold useMemo. destruct cell as [[d v]|]; [|done].
  destruct (object_is d deps) eqn:Hsame; [|done].
  apply object_is_sound in Hsame as <-. simpl. by apply Hcell.
Qed.

Lemma useMemo_cell {D V : Type} `{ObjectIs D} (f : D → V)
    (cell : MemoCell D V) (deps : D) :
  (∀ d v, cell = Some (d, v) → v = f d) →
  ∀ d v, (useMemo cell (λ _, f deps) deps).2 = Some (d, v) → v = f d.
Proof.
  intros Hcell d v. unfold useMemo. destruct cell as [[d0 v0]|].
  - destruct (object_is d0 deps); simpl; [apply Hcell|]. by intros [= <- <-].
  - simpl. by intros [= <- <-].
Qed.

Lemma renderDerived_coherent h d :
  coherent h →
  (renderDerived h d).1
  = (resourcesById (resources d),
     resourcesByEnvironment (environments d) (resourcesById (resources d)))
  ∧ coherent (renderDerived h d).2.
Proof.
  intros [Hid Henv]. unfold renderDerived.
  pose proof (useMemo_value resourcesById _ (resources d) Hid) as Hv1.
  pose proof (useMemo_cell resourcesById _ (resources d) Hid) as Hc1.
  unfold resourcesById in Hv1, Hc1 at 2.
  destruct (useMemo (memo_resourcesById h) _ (resources d)) as [byId cell1].
  simpl in Hv1, Hc1. subst byId.
  pose proof (useMemo_value
                (λ deps, resourcesByEnvironment deps.1 deps.2) _
                (environments d, resourcesById (resources d)) Henv) as Hv2.
  pose proof (useMemo_cell
                (λ deps, resourcesByEnvironment deps.1 deps.2) _
                (environments d, resourcesById (resources d)) Henv) as Hc2.
  simpl in Hv2, Hc2.
  destruct (useMemo (memo_resourcesByEnvironment h) _ _) as [byEnv cell2].
  simpl in Hv2, Hc2. subst byEnv. by repeat split.
Qed.

Lemma step_coherent h ev : coherent h → coherent (step h ev).
Proof.
  intros Hh. destruct ev as [d|sv clicked|]; simpl; [|done..].
  by apply renderDerived_coherent.
Qed.

Lemma run_coherent events : coherent (run events).
Proof.
  unfold run. induction events as [|ev events IH] using rev_ind.
  - by split.
  - rewrite foldl_app. by apply step_coherent.
Qed.

(** A handler leaves both memo cells as they are. *)
Lemma runHandler_cells h m :
  memo_resourcesById (runHandler h m) = memo_resourcesById h
  ∧ memo_resourcesByEnvironment (runHandler h m) = memo_resourcesByEnvironment h.
Proof. done. Qed.

(** C7: the maps a render derives are functions of [resources] and
    [environments] alone.  Whatever renders and clicks two mounted instances
    went through before, renders with equal [resources] and [environments]
    derive equal [resourcesById] and [resourcesByEnvironment], namely the
    maps computed afresh from these inputs; every value kept in a memo cell
    is the one computed from the dependencies kept with it; and the click
    and close handlers leave the cells untouched. *)
Theorem derived_views_pure (events1 events2 : list Event)
    (d1 d2 : EnvironmentsData) :
  resources d1 = resources d2 → environments d1 = environments d2 →
  derivedAfter events1 d1 = derivedAfter events2 d2
  ∧ derivedAfter events1 d1
    = (resourcesById (resources d1),
       resourcesByEnvironment (environments d1) (resourcesById (resources d1)))
  ∧ coherent (run events1)
  ∧ (∀ sv clicked,
       memo_resourcesById (step (run events1) (VersionClick sv clicked))
       = memo_resourcesById (run events1)
       ∧ memo_resourcesByEnvironment (step (run events1) (VersionClick sv clicked))
         = memo_resourcesByEnvironment (run events1))
  ∧ memo_resourcesById (step (run events1) RequestClose)
    = memo_resourcesById (run events1)
  ∧ memo_resourcesByEnvironment (step (run events1) RequestClose)
    = memo_resourcesByEnvironment (run events1).
Proof.
  intros Hres Henvs. unfold derivedAfter.
  destruct (renderDerived_coherent (run events1) d1 (run_coherent events1))
    as [-> _].
  destruct (renderDerived_coherent (run events2) d2 (run_coherent events2))
    as [-> _].
  rewrite Hres, Henvs.
  split; [reflexivity|]. split; [reflexivity|].
  split; [apply run_coherent|]. split; [|split]; [|reflexivity..].
  intros sv clicked. apply runHandler_cells.
Qed.
End Memo.

Lemma derived_views_pure_witness :
  @derivedAfter resourcesObjectIs environmentsObjectIs byIdObjectIs
    [Render (keelData false); VersionClick None keelVersion;
     Render {| environments := []; artifacts := []; resources := [];
               hasManagedResources := false |}]
    (keelData true)
  = @derivedAfter resourcesObjectIs environmentsObjectIs byIdObjectIs
      [] (keelData false).
Proof.
  apply (@derived_views_pure resourcesObjectIs environmentsObjectIs byIdObjectIs
           [Render (keelData false); VersionClick None keelVersion;
            Render {| environments := []; artifacts := []; resources := [];
                      hasManagedResources := false |}]
           [] (keelData true) (keelData false)); reflexivity.
Defined.

(** * Further properties of the derivations *)

(** ** What the assignment loop stores *)

(** Under a key the loop leaves the value of the last element with that key,
    and nothing when no element has it. *)
Lemma assignAll_lookup {A V : Type} (key : A → string) (val : A → V)
    (l : list A) (k : string) :
  assignAll key val l !! k = val <$> last (filter (λ x, key x = k) l).
Proof.
  induction l as [|x l IH] using rev_ind; [done|].
  rewrite assignAll_snoc, filter_app, filter_cons, filter_nil.
  destruct (decide (key x = k)) as [<-|Hne].
  - by rewrite lookup_insert_eq, last_snoc.
  - by rewrite lookup_insert_ne, app_nil_r.
Qed.

Lemma assignAll_dom {A V : Type} (key : A → string) (val : A → V) (l : list A) :
  dom (assignAll key val l) = list_to_set (key <$> l).
Proof.
  induction l as [|x l IH] using rev_ind; [apply dom_empty_L|].
  rewrite assignAll_snoc, dom_insert_L, IH, fmap_app, list_to_set_app_L.
  simpl. set_solver.
Qed.

(** X1: the read [resourcesById[k]] gives the last resource of [resources]
    whose id is [k]; when no resource has that id it gives the member of
    [Object.prototype] named [k] if there is one, and [undefined]
    otherwise. *)
Theorem resourcesById_lookup_last_with_id (resources : list Resource.t)
    (k : string) :
  getProperty (resourcesById resources) k
  = match last (filter (λ r, Resource.id r = k) resources) with
    | Some r => Some (Own r)
    | None =>
        if bool_decide (k ∈ objectPrototypeNames) then Some (Inherited k)
        else None
    end.
Proof.
  unfold getProperty, resourcesById. rewrite keyBy_assignAll, assignAll_lookup.
  by destruct (last _).
Qed.

(** X2: the keys of [resourcesById] are exactly the ids that occur in
    [resources]; for an empty collection the dictionary is empty. *)
Theorem resourcesById_dom (resources : list Resource.t) :
  dom (resourcesById resources) = list_to_set (Resource.id <$> resources)
  ∧ resourcesById [] = ∅.
Proof.
  split; [|done]. unfold resourcesById. rewrite keyBy_assignAll.
  apply assignAll_dom.
Qed.

(** X3: when no two resources share an id, every resource is found under
    its own id, and the dictionary has as many keys as there are
    resources. *)
Theorem resourcesById_roundtrip (resources : list Resource.t) :
  NoDup (Resource.id <$> resources) →
  (∀ r, r ∈ resources → resourcesById resources !! Resource.id r = Some r)
  ∧ size (resourcesById resources) = length resources.
Proof.
  intros Hnodup. split.
  - intros r Hin. apply list_elem_of_lookup in Hin as [i Hi].
    apply (resourcesById_last resources i r Hi).
    intros j r' Hj Hj' Heq.
    assert (i = j); [|lia].
    apply (NoDup_lookup _ i j (Resource.id r) Hnodup);
      rewrite list_lookup_fmap; [by rewrite Hi|].
    rewrite Hj'. simpl. by rewrite Heq.
  - unfold resourcesById. rewrite keyBy_assignAll, <- size_dom, assignAll_dom.
    rewrite size_list_to_set by done. by rewrite length_fmap.
Qed.

Lemma resourcesById_roundtrip_witness :
  (∀ r, r ∈ [sampleResource; prodResource] →
        resourcesById [sampleResource; prodResource] !! Resource.id r = Some r)
  ∧ size (resourcesById [sampleResource; prodResource]) = 2.
Proof.
  apply (resourcesById_roundtrip [sampleResource; prodResource]).
  repeat constructor; set_solver.
Defined.

Lemma resourcesById_None_unmatched resources id :
  resourcesById resources !! id = None → unmatched resources id.
Proof.
  intros Hnone r Hin Hid.
  destruct (resourcesById_matched resources id) as (r' & Hr' & _); [eauto|].
  congruence.
Qed.

(** X5: what an entry of [resourcesByEnvironment] holds at a position is
    decided by the id an environment of that name lists there: a defined
    element at position [j] is either a resource of [resources] with that
    id, or, only when no resource has the id and the id names a member of
    [Object.prototype], that inherited member. *)
Theorem resourcesByEnvironment_elements (environments : list Environment.t)
    (resources : list Resource.t) (k : string)
    (l : list (option (Property Resource.t))) (j : nat)
    (v : Property Resource.t) :
  resourcesByEnvironment environments (resourcesById resources) !! k = Some l →
  l !! j = Some (Some v) →
  ∃ e id, e ∈ environments ∧ Environment.name e = k
          ∧ Environment.resources e !! j = Some id
          ∧ match v with
            | Own r => r ∈ resources ∧ Resource.id r = id
            | Inherited name =>
                name = id ∧ id ∈ objectPrototypeNames
                ∧ unmatched resources id
            end.
Proof.
  intros Hl Hj. rewrite resourcesByEnvironment_assignAll in Hl.
  apply assignAll_lookup_Some in Hl as (e & He & Hname & <-).
  rewrite list_lookup_fmap in Hj.
  destruct (Environment.resources e !! j) as [id|] eqn:Hid; [|done].
  simpl in Hj. injection Hj as Hread.
  exists e, id. repeat split; try done.
  unfold getProperty in Hread.
  destruct (resourcesById resources !! id) as [r|] eqn:Hr.
  - injection Hread as <-.
    unfold resourcesById in Hr. rewrite keyBy_assignAll in Hr.
    by apply assignAll_lookup_Some in Hr as (r' & Hin & Hkey & ->).
  - case_bool_decide as Hproto; [|done]. injection Hread as <-.
    repeat split; [done|]. by apply resourcesById_None_unmatched.
Qed.

Lemma resourcesByEnvironment_elements_witness :
  ∃ e id, e ∈ [testEnvironment; constructorEnvironment]
          ∧ Environment.name e = "test"
          ∧ Environment.resources e !! 0 = Some id
          ∧ ("constructor" = id
             ∧ id ∈ objectPrototypeNames
             ∧ unmatched [sampleResource; prodResource] id).
Proof.
  apply (resourcesByEnvironment_elements
           [testEnvironment; constructorEnvironment]
           [sampleResource; prodResource] "test"
           [Some (Inherited "constructor")] 0 (Inherited "constructor")).
  - vm_compute. reflexivity.
  - reflexivity.
Defined.

(** ** [pick] and the selection *)

Lemma pick_subseteq (object : JsObject) (paths : list string) :
  pick object paths ⊆ object.
Proof.
  apply map_subseteq_spec. intros k v. rewrite pick_lookup.
  by case_bool_decide.
Qed.

Lemma pick_dom (object : JsObject) (paths : list string) :
  dom (pick object paths) = dom object ∩ list_to_set paths.
Proof.
  apply set_eq. intros k.
  rewrite elem_of_intersection, !elem_of_dom, pick_lookup, elem_of_list_to_set.
  case_bool_decide; [tauto|]. split; [by intros [? ?]|tauto].
Qed.

Lemma pick_idempotent (object : JsObject) (paths : list string) :
  pick (pick object paths) paths = pick object paths.
Proof. apply map_eq. intros k. rewrite !pick_lookup. by case_bool_decide. Qed.

Lemma pick_eq_toObject (params : JsObject) (clicked : ISelectedArtifactVersion) :
  pick params ["type"; "name"; "version"] = toObject clicked
  ↔ params !! "type" = Some (sel_type clicked)
    ∧ params !! "name" = Some (sel_name clicked)
    ∧ params !! "version" = Some (sel_version clicked).
Proof.
  unfold toObject. split.
  - intros Heq.
    pose proof (pick_lookup params ["type"; "name"; "version"] "type") as Ht.
    pose proof (pick_lookup params ["type"; "name"; "version"] "name") as Hn.
    pose proof (pick_lookup params ["type"; "name"; "version"] "version") as Hv.
    rewrite Heq in Ht, Hn, Hv. by simplify_map_eq.
  - intros (Ht & Hn & Hv). apply map_eq. intros k. rewrite pick_lookup.
    case_bool_decide as Hk.
    + repeat (apply elem_of_cons in Hk as [->|Hk]); [| | |set_solver];
        by simplify_map_eq.
    + assert (k ≠ "type" ∧ k ≠ "name" ∧ k ≠ "version") as (? & ? & ?)
        by set_solver.
      by simplify_map_eq.
Qed.

Lemma truthy_true_iff v : truthy v = true ↔ ∃ s, v = Some s ∧ s ≠ "".
Proof.
  destruct v as [s|]; simpl; [|naive_solver].
  destruct (String.eqb_spec s ""); naive_solver.
Qed.

Lemma selectedVersion_eq_toObject (params : JsObject)
    (clicked : ISelectedArtifactVersion) :
  selectedVersion params = Some (toObject clicked)
  ↔ params !! "type" = Some (sel_type clicked)
    ∧ params !! "name" = Some (sel_name clicked)
    ∧ params !! "version" = Some (sel_version clicked)
    ∧ sel_version clicked ≠ "".
Proof.
  unfold selectedVersion.
  destruct (truthy (params !! "version")) eqn:Htruthy.
  - apply truthy_true_iff in Htruthy as (v & Hv & Hne). split.
    + intros [= Heq]. apply pick_eq_toObject in Heq as (? & ? & Hv').
      repeat split; try done. congruence.
    + intros (? & ? & ? & _). f_equal. by apply pick_eq_toObject.
  - apply truthy_false_iff in Htruthy. split; [done|].
    intros (_ & _ & Hv & Hne). destruct Htruthy; congruence.
Qed.

(** X7: a selection is never without a version: when [selectedVersion] is
    not null it has a non-empty [version], has no property besides [type],
    [name] and [version], takes each of its properties from params, and
    deriving the selection from it again gives itself. *)
Theorem selectedVersion_shape (params sv : JsObject) :
  selectedVersion params = Some sv →
  (∃ v, sv !! "version" = Some v ∧ v ≠ "")
  ∧ dom sv ⊆ {[ "type"; "name"; "version" ]}
  ∧ sv ⊆ params
  ∧ selectedVersion sv = Some sv.
Proof.
  unfold selectedVersion.
  destruct (truthy (params !! "version")) eqn:Htruthy; [|done].
  intros [= <-]. apply truthy_true_iff in Htruthy as (v & Hv & Hne).
  pose proof (pick_subseteq params ["type"; "name"; "version"]) as Hsub.
  pose proof (pick_dom params ["type"; "name"; "version"]) as Hdom.
  pose proof (pick_idempotent params ["type"; "name"; "version"]) as Hidem.
  assert (pick params ["type"; "name"; "version"] !! "version" = Some v) as Hpv.
  { rewrite pick_lookup. by rewrite bool_decide_eq_true_2 by set_solver. }
  split; [by exists v|]. split; [|split]; [set_solver|done|].
  rewrite Hpv. simpl. destruct (String.eqb_spec v ""); [done|].
  simpl. by rewrite Hidem.
Qed.

Lemma selectedVersion_shape_witness :
  (∃ v, pick keelParams ["type"; "name"; "version"] !! "version" = Some v
        ∧ v ≠ "")
  ∧ dom (pick keelParams ["type"; "name"; "version"])
    ⊆ {[ "type"; "name"; "version" ]}
  ∧ pick keelParams ["type"; "name"; "version"] ⊆ keelParams
  ∧ selectedVersion (pick keelParams ["type"; "name"; "version"])
    = Some (pick keelParams ["type"; "name"; "version"]).
Proof. apply (selectedVersion_shape keelParams). reflexivity. Defined.

(** X8: a click on a version does nothing exactly when the route already
    holds that version: the handler makes no router call if and only if
    params has the clicked [type], [name] and [version] and that version is
    not the empty string.  A click on a version whose [version] is empty
    therefore always navigates. *)
Theorem versionSelected_noop_iff (params : JsObject)
    (clicked : ISelectedArtifactVersion) (st : LocalState) :
  handlerCalls (versionSelected (selectedVersion params) clicked st) = []
  ↔ params !! "type" = Some (sel_type clicked)
    ∧ params !! "name" = Some (sel_name clicked)
    ∧ params !! "version" = Some (sel_version clicked)
    ∧ sel_version clicked ≠ "".
Proof.
  rewrite <- selectedVersion_eq_toObject.
  destruct (versionSelected_calls (selectedVersion params) clicked st)
    as [_ ->].
  by case_decide.
Qed.

Lemma toObject_union_lookup (clicked : ISelectedArtifactVersion)
    (params : JsObject) :
  (toObject clicked ∪ params) !! "type" = Some (sel_type clicked)
  ∧ (toObject clicked ∪ params) !! "name" = Some (sel_name clicked)
  ∧ (toObject clicked ∪ params) !! "version" = Some (sel_version clicked).
Proof.
  unfold toObject.
  repeat split; apply lookup_union_Some_l; by simplify_map_eq.
Qed.

(** X18: selecting is a round trip through the route.  Once the params of
    the route are the clicked version laid over the previous params, and the
    clicked [version] is not empty, the selection derived from the route is
    exactly the clicked version, and a second click on it makes no router
    call. *)
Theorem select_then_click_again (params : JsObject)
    (clicked : ISelectedArtifactVersion) (st : LocalState) :
  sel_version clicked ≠ "" →
  selectedVersion (toObject clicked ∪ params) = Some (toObject clicked)
  ∧ handlerCalls
      (versionSelected (selectedVersion (toObject clicked ∪ params)) clicked st)
    = [].
Proof.
  intros Hne.
  assert (selectedVersion (toObject clicked ∪ params) = Some (toObject clicked))
    as Hsel.
  { apply selectedVersion_eq_toObject.
    destruct (toObject_union_lookup clicked params) as (? & ? & ?). done. }
  split; [done|]. rewrite Hsel.
  destruct (versionSelected_calls (Some (toObject clicked)) clicked st)
    as [_ ->].
  by case_decide.
Qed.

Lemma select_then_click_again_witness :
  selectedVersion (toObject keelVersion ∪ {[ "application" := "keel" ]})
  = Some (toObject keelVersion)
  ∧ handlerCalls
      (versionSelected
         (selectedVersion (toObject keelVersion ∪ {[ "application" := "keel" ]}))
         keelVersion initialLocalState)
    = [].
Proof. apply select_then_click_again. discriminate. Defined.

(** ** The selected artifact and version *)

Lemma find_Some_first {A : Type} (f : A → bool) (l : list A) (x : A) :
  List.find f l = Some x
  ↔ ∃ i, l !! i = Some x ∧ f x = true
         ∧ ∀ j y, j < i → l !! j = Some y → f y = false.
Proof.
  induction l as [|z l IH]; simpl.
  - split; [done|]. by intros (i & Hi & _).
  - destruct (f z) eqn:Hz.
    + split.
      * intros [= <-]. exists 0. repeat split; [done|]. intros j y Hj. lia.
      * intros (i & Hi & Hx & Hfirst). destruct i as [|i]; [by injection Hi as ->|].
        specialize (Hfirst 0 z (Nat.lt_0_succ i) eq_refl). congruence.
    + rewrite IH. split.
      * intros (i & Hi & Hx & Hfirst). exists (S i). repeat split; [done..|].
        intros [|j] y Hj Hy; [by injection Hy as <-|].
        apply (Hfirst j y); [lia|done].
      * intros (i & Hi & Hx & Hfirst). destruct i as [|i].
        { injection Hi as ->. congruence. }
        exists i. repeat split; [done..|]. intros j y Hj Hy.
        apply (Hfirst (S j) y); [lia|done].
Qed.

Lemma find_None_all {A : Type} (f : A → bool) (l : list A) :
  List.find f l = None ↔ ∀ x, x ∈ l → f x = false.
Proof.
  induction l as [|z l IH]; simpl; [set_solver|].
  destruct (f z) eqn:Hz.
  - split; [done|]. intros Hall.
    assert (f z = false) by (apply Hall; set_solver). congruence.
  - rewrite IH. split.
    + intros Hall x Hx. apply elem_of_cons in Hx as [->|Hx]; [done|by apply Hall].
    + intros Hall x Hx. apply Hall. set_solver.
Qed.

Lemma artifactMatches_test sv a :
  bool_decide (Some (Artifact.type a) = sv !! "type")
  && bool_decide (Some (Artifact.name a) = sv !! "name") = true
  ↔ artifactMatches sv a.
Proof.
  unfold artifactMatches.
  rewrite andb_true_iff, !bool_decide_eq_true. naive_solver.
Qed.

Lemma artifactMatches_test_false sv a :
  bool_decide (Some (Artifact.type a) = sv !! "type")
  && bool_decide (Some (Artifact.name a) = sv !! "name") = false
  ↔ ¬ artifactMatches sv a.
Proof.
  rewrite <- artifactMatches_test. by destruct (_ && _).
Qed.

Lemma selectedArtifactDetails_Some sv artifacts a :
  selectedArtifactDetails (Some sv) artifacts = Some a
  ↔ ∃ i, artifacts !! i = Some a ∧ artifactMatches sv a
         ∧ ∀ j b, j < i → artifacts !! j = Some b → ¬ artifactMatches sv b.
Proof.
  unfold selectedArtifactDetails. rewrite find_Some_first.
  setoid_rewrite artifactMatches_test.
  by setoid_rewrite artifactMatches_test_false.
Qed.

Lemma selectedArtifactDetails_None sv artifacts :
  selectedArtifactDetails (Some sv) artifacts = None
  ↔ ∀ a, a ∈ artifacts → ¬ artifactMatches sv a.
Proof.
  unfold selectedArtifactDetails. rewrite find_None_all.
  by setoid_rewrite artifactMatches_test_false.
Qed.

(** X9: with a selection, [selectedArtifactDetails] is the first artifact of
    the list that has the selected type and name, and nullish exactly when
    no artifact has them; without a selection it is null. *)
Theorem selectedArtifactDetails_first_match (sv : JsObject)
    (artifacts : list Artifact.t) :
  match selectedArtifactDetails (Some sv) artifacts with
  | Some a =>
      ∃ i, artifacts !! i = Some a ∧ artifactMatches sv a
           ∧ ∀ j b, j < i → artifacts !! j = Some b → ¬ artifactMatches sv b
  | None => ∀ a, a ∈ artifacts → ¬ artifactMatches sv a
  end
  ∧ selectedArtifactDetails None artifacts = None.
Proof.
  split; [|done].
  destruct (selectedArtifactDetails (Some sv) artifacts) as [a|] eqn:Hfind.
  - by apply selectedArtifactDetails_Some.
  - by apply selectedArtifactDetails_None.
Qed.

(** X10: [selectedVersionDetails] is the first version record of the
    selected artifact whose [version] is the selected one, [undefined] when
    the artifact has no such record, and [undefined] when there is no
    selected artifact. *)
Theorem selectedVersionDetails_first_match (sv : JsObject) (a : Artifact.t) :
  match selectedVersionDetails (Some sv) (Some a) with
  | Some v =>
      ∃ i, Artifact.versions a !! i = Some v
           ∧ sv !! "version" = Some (ArtifactVersion.version v)
           ∧ ∀ j u, j < i → Artifact.versions a !! j = Some u →
                    sv !! "version" ≠ Some (ArtifactVersion.version u)
  | None =>
      ∀ v, v ∈ Artifact.versions a →
           sv !! "version" ≠ Some (ArtifactVersion.version v)
  end
  ∧ selectedVersionDetails (Some sv) None = None.
Proof.
  split; [|done]. unfold selectedVersionDetails. simpl.
  destruct (List.find _ (Artifact.versions a)) as [v|] eqn:Hfind.
  - apply find_Some_first in Hfind as (i & Hi & Hv & Hfirst).
    exists i. split; [done|]. split.
    + by apply bool_decide_eq_true in Hv.
    + intros j u Hj Hu Heq. specialize (Hfirst j u Hj Hu).
      apply bool_decide_eq_false in Hfirst. congruence.
  - intros v Hv Heq. apply (proj1 (find_None_all _ _) Hfind) in Hv.
    apply bool_decide_eq_false in Hv. congruence.
Qed.

(** X19: the dependency list of the [selectedArtifactDetails] memo leaves
    out [selectedVersion] itself, yet a value reused under it is the value
    the factory would compute: when two renders agree on
    [selectedVersion?.type], [selectedVersion?.name] and [artifacts], their
    [selectedArtifactDetails] are the same artifact, or both nullish. *)
Theorem selectedArtifactDetails_memo_deps
    (selectedVersion0 selectedVersion1 : option JsObject)
    (artifacts0 artifacts1 : list Artifact.t) :
  selectedArtifactDetailsDeps selectedVersion0 artifacts0
  = selectedArtifactDetailsDeps selectedVersion1 artifacts1 →
  selectedArtifactDetails selectedVersion0 artifacts0
  = selectedArtifactDetails selectedVersion1 artifacts1.
Proof.
  unfold selectedArtifactDetailsDeps. intros [= Htype Hname <-].
  assert (∀ sv : JsObject, sv !! "type" = None →
            selectedArtifactDetails (Some sv) artifacts0 = None) as Hnone.
  { intros sv Hsv. apply selectedArtifactDetails_None.
    intros a _ [Ht _]. congruence. }
  destruct selectedVersion0 as [sv0|], selectedVersion1 as [sv1|];
    simpl in Htype, Hname.
  - unfold selectedArtifactDetails. by rewrite Htype, Hname.
  - by rewrite Hnone.
  - by rewrite Hnone.
  - done.
Qed.

Lemma selectedArtifactDetails_memo_deps_witness :
  selectedArtifactDetails None [keelArtifact]
  = selectedArtifactDetails (Some {[ "version" := "1.0.0" ]}) [keelArtifact].
Proof. apply selectedArtifactDetails_memo_deps. reflexivity. Defined.

(** ** The populated view *)

Lemma artifactMatches_pick (params : JsObject) (a : Artifact.t) :
  artifactMatches (pick params ["type"; "name"; "version"]) a
  ↔ artifactMatches params a.
Proof.
  unfold artifactMatches. rewrite !pick_lookup.
  by rewrite !bool_decide_eq_true_2 by set_solver.
Qed.

Lemma selectedVersion_Some_iff (params : JsObject) :
  (∃ v, params !! "version" = Some v ∧ v ≠ "")
  ↔ selectedVersion params = Some (pick params ["type"; "name"; "version"]).
Proof.
  rewrite <- truthy_true_iff. unfold selectedVersion.
  by destruct (truthy (params !! "version")).
Qed.

(** X11: the render throws exactly when the populated branch is reached
    (status not ['ERROR'], loaded, managed), params has a non-empty
    [version], and no artifact has the [type] and [name] of params; in every
    other case it returns an element. *)
Theorem Environments_throws_iff (app : Application.t) (ds : DataSourceView)
    (params : JsObject) (SETTINGS : Settings) (st : LocalState) :
  (∃ e, Environments app ds params SETTINGS st = Throw e)
  ↔ status ds ≠ "ERROR" ∧ loaded ds = true
    ∧ hasManagedResources (data ds) = true
    ∧ (∃ v, params !! "version" = Some v ∧ v ≠ "")
    ∧ (∀ a, a ∈ artifacts (data ds) → ¬ artifactMatches params a).
Proof.
  rewrite selectedVersion_Some_iff.
  unfold Environments, environmentsColumn.
  destruct (String.eqb_spec (status ds) "ERROR") as [Herr|Hok]; [naive_solver|].
  destruct (loaded ds); simpl; [|naive_solver].
  destruct (hasManagedResources (data ds)); simpl; [|naive_solver].
  destruct (selectedVersion params) as [sv|] eqn:Hsv; [|naive_solver].
  assert (sv = pick params ["type"; "name"; "version"]) as ->.
  { unfold selectedVersion in Hsv.
    destruct (truthy (params !! "version")); congruence. }
  destruct (selectedArtifactDetails _ (artifacts (data ds)))
    as [a|] eqn:Hfind.
  - split; [by intros [e He]|]. intros (_ & _ & _ & _ & Hnone).
    apply selectedArtifactDetails_Some in Hfind as (i & Hi & Hm & _).
    apply (proj1 (artifactMatches_pick _ _)) in Hm.
    exfalso. apply (Hnone a); [by eapply list_elem_of_lookup_2|done].
  - split; [|eauto]. intros _. repeat split; try done.
    intros a Ha Hm.
    apply (proj1 (selectedArtifactDetails_None _ _) Hfind a Ha).
    by apply artifactMatches_pick.
Qed.

(** X12: on the populated branch with no non-empty [version] in params, the
    render does not throw: it is the layout whose artifacts list has no
    selection and whose right column is the environments list, given the
    environments, the artifacts and [resourcesById]. *)
Theorem Environments_environments_list (app : Application.t)
    (ds : DataSourceView) (params : JsObject) (SETTINGS : Settings)
    (st : LocalState) :
  status ds ≠ "ERROR" → loaded ds = true →
  hasManagedResources (data ds) = true →
  params !! "version" = None ∨ params !! "version" = Some "" →
  Environments app ds params SETTINGS st
  = Ok (PopulatedLayout (totalContentWidth st)
          {| al_artifacts := artifacts (data ds);
             al_selectedVersion := None;
             al_versionSelected := versionSelected None |}
          (EnvironmentsListColumn
             {| el_environments := environments (data ds);
                el_artifacts := artifacts (data ds);
                el_resourcesById := resourcesById (resources (data ds)) |})).
Proof.
  intros Hok Hloaded Hmanaged Hversion.
  apply truthy_false_iff in Hversion.
  unfold Environments, environmentsColumn, selectedVersion.
  by rewrite (status_eqb_not_ERROR _ Hok), Hloaded, Hmanaged, Hversion.
Qed.

Lemma Environments_environments_list_witness :
  Environments keelApp (fetched true) {[ "application" := "keel" ]}
    noSettings initialLocalState
  = Ok (PopulatedLayout (totalContentWidth initialLocalState)
          {| al_artifacts := artifacts (data (fetched true));
             al_selectedVersion := None;
             al_versionSelected := versionSelected None |}
          (EnvironmentsListColumn
             {| el_environments := environments (data (fetched true));
                el_artifacts := artifacts (data (fetched true));
                el_resourcesById :=
                  resourcesById (resources (data (fetched true))) |})).
Proof.
  apply Environments_environments_list;
    [discriminate|reflexivity|reflexivity|left; reflexivity].
Defined.

(** X13: on the populated branch with a non-empty [version] in params and
    an artifact of the [type] and [name] of params, the right column is the
    artifact detail of the first such artifact: its name and type, all its
    versions, the first version record whose [version] is the one in params
    ([undefined] if it has none), [resourcesByEnvironment], and a close
    handler that only calls [go('^')]. *)
Theorem Environments_artifact_detail (app : Application.t)
    (ds : DataSourceView) (params : JsObject) (SETTINGS : Settings)
    (st : LocalState) (i : nat) (a : Artifact.t) (v : string) :
  status ds ≠ "ERROR" → loaded ds = true →
  hasManagedResources (data ds) = true →
  params !! "version" = Some v → v ≠ "" →
  artifacts (data ds) !! i = Some a → artifactMatches params a →
  (∀ j b, j < i → artifacts (data ds) !! j = Some b →
          ¬ artifactMatches params b) →
  ∃ al props,
    Environments app ds params SETTINGS st
    = Ok (PopulatedLayout (totalContentWidth st) al (ArtifactDetailColumn props))
    ∧ al_selectedVersion al = Some (pick params ["type"; "name"; "version"])
    ∧ ad_application props = app
    ∧ ad_name props = Some (Artifact.name a)
    ∧ ad_type props = Some (Artifact.type a)
    ∧ ad_allVersions props = Artifact.versions a
    ∧ match ad_version props with
      | Some u => u ∈ Artifact.versions a ∧ ArtifactVersion.version u = v
      | None => ∀ u, u ∈ Artifact.versions a → ArtifactVersion.version u ≠ v
      end
    ∧ ad_resourcesByEnvironment props
      = resourcesByEnvironment (environments (data ds))
          (resourcesById (resources (data ds)))
    ∧ ∀ st', ad_onRequestClose props st' = (tt, st', [Go "^" None]).
Proof.
  intros Hok Hloaded Hmanaged Hv Hne Hi Hmatch Hfirst.
  assert (selectedVersion params
          = Some (pick params ["type"; "name"; "version"])) as Hsv.
  { apply selectedVersion_Some_iff. eauto. }
  assert (selectedArtifactDetails
            (Some (pick params ["type"; "name"; "version"]))
            (artifacts (data ds)) = Some a) as Hfind.
  { apply selectedArtifactDetails_Some. exists i.
    split; [done|]. split; [by apply artifactMatches_pick|].
    intros j b Hj Hb Hm. apply (Hfirst j b Hj Hb).
    by apply artifactMatches_pick. }
  unfold Environments, environmentsColumn.
  rewrite (status_eqb_not_ERROR _ Hok), Hloaded, Hmanaged, Hsv, Hfind. simpl.
  eexists _, _. split; [reflexivity|]. simpl.
  destruct Hmatch as [Ht Hn].
  assert (pick params ["type"; "name"; "version"] !! "version" = Some v) as Hpv.
  { rewrite pick_lookup. by rewrite bool_decide_eq_true_2 by set_solver. }
  repeat split; try done.
  - rewrite pick_lookup. by rewrite bool_decide_eq_true_2 by set_solver.
  - rewrite pick_lookup. by rewrite bool_decide_eq_true_2 by set_solver.
  - rewrite Hpv.
    destruct (List.find _ (Artifact.versions a)) as [u|] eqn:Hu.
    + apply find_Some_first in Hu as (k & Hk & Hu & _).
      apply bool_decide_eq_true in Hu. split; [|congruence].
      by eapply list_elem_of_lookup_2.
    + intros u Hin Heq. apply (proj1 (find_None_all _ _) Hu) in Hin.
      apply bool_decide_eq_false in Hin. congruence.
Qed.

Lemma Environments_artifact_detail_witness :
  ∃ al props,
    Environments keelApp (fetched true) keelParams noSettings initialLocalState
    = Ok (PopulatedLayout (totalContentWidth initialLocalState) al
            (ArtifactDetailColumn props))
    ∧ al_selectedVersion al = Some (pick keelParams ["type"; "name"; "version"])
    ∧ ad_application props = keelApp
    ∧ ad_name props = Some "keel"
    ∧ ad_type props = Some "deb"
    ∧ ad_allVersions props = Artifact.versions keelArtifact
    ∧ match ad_version props with
      | Some u => u ∈ Artifact.versions keelArtifact
                  ∧ ArtifactVersion.version u = "1.0.0"
      | None => ∀ u, u ∈ Artifact.versions keelArtifact →
                     ArtifactVersion.version u ≠ "1.0.0"
      end
    ∧ ad_resourcesByEnvironment props
      = resourcesByEnvironment (environments (data (fetched true)))
          (resourcesById (resources (data (fetched true))))
    ∧ ∀ st', ad_onRequestClose props st' = (tt, st', [Go "^" None]).
Proof.
  apply (Environments_artifact_detail keelApp (fetched true) keelParams
           noSettings initialLocalState 0 keelArtifact "1.0.0");
    try reflexivity; try discriminate.
  - split; reflexivity.
  - intros j b Hj. lia.
Defined.

(** X14: which of the four views a render returns depends on [status],
    [loaded] and [hasManagedResources] only: two renders that agree on these
    three and both return an element return elements of the same view state,
    whatever the application, the data, the params, the settings and the
    local state are. *)
Theorem viewState_depends_on_three_inputs
    (app1 app2 : Application.t) (ds1 ds2 : DataSourceView)
    (params1 params2 : JsObject) (SETTINGS1 SETTINGS2 : Settings)
    (st1 st2 : LocalState) (e1 e2 : Element) :
  status ds1 = status ds2 → loaded ds1 = loaded ds2 →
  hasManagedResources (data ds1) = hasManagedResources (data ds2) →
  Environments app1 ds1 params1 SETTINGS1 st1 = Ok e1 →
  Environments app2 ds2 params2 SETTINGS2 st2 = Ok e2 →
  viewState e1 = viewState e2.
Proof.
  intros Hstatus Hloaded Hmanaged Hr1 Hr2.
  pose proof (Environments_cases app1 ds1 params1 SETTINGS1 st1) as H1.
  pose proof (Environments_cases app2 ds2 params2 SETTINGS2 st2) as H2.
  rewrite Hr1 in H1. rewrite Hr2 in H2. rewrite H1, H2.
  unfold selectedState. by rewrite Hstatus, Hloaded, Hmanaged.
Qed.

Lemma viewState_depends_on_three_inputs_witness :
  viewState (UnmanagedGuidance defaultGettingStartedUrl)
  = viewState (UnmanagedGuidance "https://docs.example.com/md").
Proof.
  apply (viewState_depends_on_three_inputs
           keelApp {| Application.name := "orca" |}
           (fetched false)
           {| data := {| environments := []; artifacts := []; resources := [];
                         hasManagedResources := false |};
              status := "FETCHED"; loaded := true |}
           keelParams ∅ noSettings (settingsWithUrl "https://docs.example.com/md")
           initialLocalState {| isFiltersOpen := true |});
    reflexivity.
Defined.

(** X15: the getting-started link is never the empty string, whatever the
    settings are. *)
Theorem gettingStartedLink_nonempty (SETTINGS : Settings) :
  gettingStartedLink SETTINGS ≠ "".
Proof.
  rewrite gettingStartedLink_cases.
  destruct (managedDelivery SETTINGS ≫= gettingStartedUrl) as [url|];
    [by case_decide|done].
Qed.

(** ** The mounted instance *)

Section MountedInstance.
Context `{ObjectIs (list Resource.t), ObjectIs (list Environment.t),
          ObjectIs (gmap string Resource.t)}.

Lemma step_local h ev : local (step h ev) = local h.
Proof.
  destruct ev as [d|sv clicked|]; simpl.
  - unfold renderDerived.
    destruct (useMemo (memo_resourcesById h) _ _) as [byId cell1].
    by destruct (useMemo (memo_resourcesByEnvironment h) _ _).
  - apply versionSelected_calls.
  - done.
Qed.

(** X16: nothing the component does changes its local state: after any
    sequence of renders, version clicks and close requests, [isFiltersOpen]
    is still false, so the content width of the populated layout is always
    ['1200px']. *)
Theorem filters_never_open (events : list Event) :
  local (run events) = initialLocalState
  ∧ isFiltersOpen (local (run events)) = false
  ∧ totalContentWidth (local (run events)) = "1200px".
Proof.
  assert (local (run events) = initialLocalState) as ->.
  { unfold run. induction events as [|ev events IH] using rev_ind; [done|].
    by rewrite foldl_app; simpl; rewrite step_local. }
  split; [reflexivity|]. split; [reflexivity|]. vm_compute. reflexivity.
Qed.

Lemma useMemo_cell_exact {D V : Type} `{ObjectIs D} (f : D → V)
    (cell : MemoCell D V) (deps : D) :
  (∀ d v, cell = Some (d, v) → v = f d) →
  (useMemo cell (λ _, f deps) deps).2 = Some (deps, f deps).
Proof.
  intros Hcell. unfold useMemo. destruct cell as [[d v]|]; [|done].
  destruct (object_is d deps) eqn:Hsame; [|done].
  apply object_is_sound in Hsame as <-. simpl. by rewrite (Hcell d v).
Qed.

Lemma useMemo_stored {D V : Type} `{ObjectIs D} (f : D → V) (deps : D) :
  useMemo (Some (deps, f deps)) (λ _, f deps) deps
  = (f deps, Some (deps, f deps)).
Proof. unfold useMemo. by destruct (object_is deps deps). Qed.

(** X17: after any history, a render leaves in the two memo cells exactly
    its own inputs with the maps derived from them; rendering again with the
    same data gives the same maps and leaves the instance as it is, whether
    or not the dependencies are recognised as the same. *)
Theorem render_settles_memo_cells (events : list Event) (d : EnvironmentsData) :
  memo_resourcesById (renderDerived (run events) d).2
  = Some (resources d, resourcesById (resources d))
  ∧ memo_resourcesByEnvironment (renderDerived (run events) d).2
    = Some ((environments d, resourcesById (resources d)),
            resourcesByEnvironment (environments d)
              (resourcesById (resources d)))
  ∧ renderDerived (renderDerived (run events) d).2 d
    = renderDerived (run events) d.
Proof.
  destruct (run_coherent events) as [Hid Henv].
  assert (∀ h, coherent h →
            renderDerived h d
            = (resourcesById (resources d),
               resourcesByEnvironment (environments d)
                 (resourcesById (resources d)),
               {| memo_resourcesById :=
                    Some (resources d, resourcesById (resources d));
                  memo_resourcesByEnvironment :=
                    Some ((environments d, resourcesById (resources d)),
                          resourcesByEnvironment (environments d)
                            (resourcesById (resources d)));
                  local := local h |})) as Hrender.
  { intros h [Hid' Henv']. unfold renderDerived.
    pose proof (useMemo_value resourcesById _ (resources d) Hid') as Hv1.
    pose proof (useMemo_cell_exact resourcesById _ (resources d) Hid') as Hc1.
    unfold resourcesById in Hv1, Hc1 at 2.
    destruct (useMemo (memo_resourcesById h) _ (resources d)) as [byId cell1].
    simpl in Hv1, Hc1. subst byId cell1.
    pose proof (useMemo_value
                  (λ deps, resourcesByEnvironment deps.1 deps.2) _
                  (environments d, resourcesById (resources d)) Henv') as Hv2.
    pose proof (useMemo_cell_exact
                  (λ deps, resourcesByEnvironment deps.1 deps.2) _
                  (environments d, resourcesById (resources d)) Henv') as Hc2.
    simpl in Hv2, Hc2.
    destruct (useMemo (memo_resourcesByEnvironment h) _ _) as [byEnv cell2].
    simpl in Hv2, Hc2. by subst byEnv cell2. }
  rewrite (Hrender (run events) (run_coherent events)). simpl.
  split; [done|]. split; [done|].
  rewrite Hrender; [done|]. split; simpl; by intros ? ? [= <- <-].
Qed.
End MountedInstance.
